(** * tpuproxy: device-memory mapping and the VFIO container descriptor

    A shallow embedding of gVisor's [pkg/sentry/devices/tpuproxy]:
    the memory-mapping methods of [tpuFD] and [pciDeviceFD] with their
    [memmap.File] backings, and the [vfioFd] container descriptor of
    [vfio.go] (release, waiter registration, ioctl dispatch and the
    extension check).

    Go integers are [Z] with the conversions written out; a Go [error] is
    an [option error] ([None] is [nil]); every call that leaves the
    sentry (logging, fdnotifier, host system calls, listener callbacks)
    appends an [Event] to a trace, in program order. *)

From Stdlib Require Import ZArith List String Bool Lia.
Import ListNotations.
Local Open Scope Z_scope.

(** ** Errors, events and the effect trace *)

(** [linuxerr.EINVAL], [linuxerr.ENOSYS], and whatever errno a host
    system call hands back ([unix.Errno]). *)
Inductive error : Type :=
| linuxerr_EINVAL
| linuxerr_ENOSYS
| unix_Errno (errno : Z).

(** [waiter.EventMask] is a [uint64] bit set. *)
Definition EventMask := Z.

(** [waiter.Entry]: a waiter is identified by the address of its entry;
    [entry_mask] is the set of events it asked for. *)
Record Entry : Type := mkEntry { entry_addr : positive; entry_mask : EventMask }.

Definition Entry_eq_dec (a b : Entry) : {a = b} + {a <> b}.
Proof. decide equality; [apply Z.eq_dec | apply Pos.eq_dec]. Defined.

Inductive Event : Type :=
| EvLogTraceback (msg : string)                 (* log.Traceback *)
| EvLogWarning (ext_name : string) (err : error) (* log.Warningf in checkExtension *)
| EvHostIoctl (hostfd cmd arg : Z)               (* ioctlInvoke *)
| EvRemoveFD (hostfd : Z)                        (* fdnotifier.RemoveFD *)
| EvUpdateFD (hostfd : Z) (mask : EventMask)     (* fdnotifier.UpdateFD *)
| EvNotifyEvent (e : Entry) (mask : EventMask)   (* a listener callback *)
| EvClose (hostfd : Z)                           (* unix.Close *)
| EvUserMem (addr : Z).                          (* a usermem.IO copy *)

Definition is_host_call (ev : Event) : bool :=
  match ev with EvHostIoctl _ _ _ => true | _ => false end.

Definition is_usermem (ev : Event) : bool :=
  match ev with EvUserMem _ => true | _ => false end.

Definition host_calls (tr : list Event) : list Event := filter is_host_call tr.
Definition usermem_accesses (tr : list Event) : list Event := filter is_usermem tr.

(** [a] occurs in [tr] strictly before [b] does. *)
Definition precedes (a b : Event) (tr : list Event) : Prop :=
  exists l1 l2 l3, tr = l1 ++ a :: l2 ++ b :: l3.

(** ** Memory mapping of the passthrough descriptors *)

Module Memmap.

(** [memmap.MappableRange] and [memmap.FileRange]: half-open [uint64]
    ranges. *)
Record MappableRange : Type := mkMR { Start : Z; End : Z }.
Record FileRange : Type := mkFR { fr_Start : Z; fr_End : Z }.

(** [hostarch.AccessType]. *)
Record AccessType : Type := mkAT { Read : bool; Write : bool; Execute : bool }.

(** [safemem.Block] and [safemem.BlockSeq]; the zero value
    [safemem.BlockSeq{}] holds no block. *)
Record Block : Type := mkBlock { block_addr : Z; block_len : Z }.
Definition BlockSeq := list Block.
Definition BlockSeq_zero : BlockSeq := [].
Definition NumBytes (bs : BlockSeq) : Z :=
  fold_right (fun b n => block_len b + n) 0 bs.

(** The backing objects hold a pointer to their descriptor; the
    descriptor embeds its backing. The back pointer is kept as the
    descriptor's address. *)
Record tpuFDMemmapFile : Type := mkTpuMF { tpu_mf_fd : positive }.
Record pciDeviceFdMemmapFile : Type := mkPciMF { pci_mf_fd : positive }.

Record tpuFD : Type := mkTpuFD
  { tpu_hostFD : Z; tpu_memmapFile : tpuFDMemmapFile }.
Record pciDeviceFD : Type := mkPciFD
  { pci_hostFD : Z; pci_memmapFile : pciDeviceFdMemmapFile }.

(** A [memmap.File] interface value: which backing it points to. *)
Inductive File : Type :=
| File_tpu (mf : tpuFDMemmapFile)
| File_pci (mf : pciDeviceFdMemmapFile).

Record Translation : Type := mkTranslation
  { Source : MappableRange; TFile : File; Offset : Z; Perms : AccessType }.

Definition tpuFD_Translate (fd : tpuFD) (required optional : MappableRange)
    (at_ : AccessType) : list Translation * option error :=
  ([ {| Source := optional;
        TFile := File_tpu (tpu_memmapFile fd);
        Offset := Start optional;
        Perms := at_ |} ], None).

Definition pciDeviceFD_Translate (fd : pciDeviceFD)
    (required optional : MappableRange)
    (at_ : AccessType) : list Translation * option error :=
  ([ {| Source := optional;
        TFile := File_pci (pci_memmapFile fd);
        Offset := Start optional;
        Perms := at_ |} ], None).

(** [MapInternal] logs, then returns; the log is threaded as the trace. *)
Definition tpuFDMemmapFile_MapInternal (mf : tpuFDMemmapFile) (fr : FileRange)
    (at_ : AccessType) (tr : list Event)
    : (BlockSeq * option error) * list Event :=
  let tr := tr ++ [EvLogTraceback "tpuproxy: rejecting tpuFdMemmapFile.MapInternal"%string] in
  ((BlockSeq_zero, Some linuxerr_EINVAL), tr).

Definition pciDeviceFdMemmapFile_MapInternal (mf : pciDeviceFdMemmapFile)
    (fr : FileRange) (at_ : AccessType) (tr : list Event)
    : (BlockSeq * option error) * list Event :=
  let tr := tr ++ [EvLogTraceback "tpuproxy: rejecting pciDeviceFdMemmapFile.MapInternal"%string] in
  ((BlockSeq_zero, Some linuxerr_EINVAL), tr).


(** The descriptors, by address. An address the store does not hold
    stands for a nil pointer: reading a field through it panics, which
    is [None] below. *)
Record Store : Type := mkStore
  { tpu_at : positive -> option tpuFD;
    pci_at : positive -> option pciDeviceFD }.

(** [FD] reads the host descriptor through the back pointer; [int(x)] on
    an [int32] keeps the value. *)
Definition tpuFDMemmapFile_FD (st : Store) (mf : tpuFDMemmapFile) : option Z :=
  match tpu_at st (tpu_mf_fd mf) with
  | Some fd => Some (tpu_hostFD fd)
  | None => None
  end.

Definition pciDeviceFdMemmapFile_FD (st : Store) (mf : pciDeviceFdMemmapFile)
    : option Z :=
  match pci_at st (pci_mf_fd mf) with
  | Some fd => Some (pci_hostFD fd)
  | None => None
  end.

Definition File_FD (st : Store) (f : File) : option Z :=
  match f with
  | File_tpu mf => tpuFDMemmapFile_FD st mf
  | File_pci mf => pciDeviceFdMemmapFile_FD st mf
  end.

(** Two descriptors in a store, each the owner of its backing. *)
Definition tpu0 : tpuFD := {| tpu_hostFD := 5; tpu_memmapFile := mkTpuMF 1 |}.
Definition pci0 : pciDeviceFD := {| pci_hostFD := 6; pci_memmapFile := mkPciMF 2 |}.
Definition store0 : Store :=
  {| tpu_at := fun a => if Pos.eqb a 1 then Some tpu0 else None;
     pci_at := fun a => if Pos.eqb a 2 then Some pci0 else None |}.

End Memmap.

(** ** The VFIO container descriptor ([vfio.go]) *)

Module Vfio.

(** *** What [vfio.go] imports *)

(** The constants of [pkg/abi/linux] and [pkg/waiter] that the file
    names. Their values are not fixed here: every result below holds
    whatever they are. *)
Class LinuxABI : Type := mkLinuxABI
  { VFIO_CHECK_EXTENSION : Z;
    VFIO_TYPE1_IOMMU : Z;
    VFIO_SPAPR_TCE_IOMMU : Z;
    VFIO_TYPE1v2_IOMMU : Z;
    EventHUp : EventMask }.

(** The host side. [ioctlInvoke_result] is what the host answers to an
    ioctl (the returned [uintptr] and the error), [UpdateFD_result]
    whether the notifier manages to apply a new subscription mask. Both
    may depend on everything that happened before (the trace). *)
Class Host : Type := mkHost
  { ioctlInvoke_result : list Event -> Z -> Z -> Z -> Z * option error;
    UpdateFD_result : list Event -> Z -> EventMask -> option error }.

(** Go's [uint32(v)] and [int32(v)] on an integer [v]. *)
Definition uint32 (v : Z) : Z := v mod 2 ^ 32.
Definition int32 (v : Z) : Z := (v + 2 ^ 31) mod 2 ^ 32 - 2 ^ 31.

(** [arch.SyscallArguments] is an array of six register values;
    [SyscallArgument.Uint] and [.Int] truncate one to 32 bits. *)
Record SyscallArguments : Type := mkArgs
  { arg0 : Z; arg1 : Z; arg2 : Z; arg3 : Z; arg4 : Z; arg5 : Z }.
Definition SyscallArgument_Uint (a : Z) : Z := uint32 a.
Definition SyscallArgument_Int (a : Z) : Z := int32 a.

(** A [context.Context] either belongs to a task or does not;
    [kernel.TaskFromContext] tells which. *)
Definition Task := positive.
Record Context : Type := mkContext { ctx_task : option Task }.
Definition kernel_TaskFromContext (ctx : Context) : option Task := ctx_task ctx.

(** [usermem.IO]: the guest memory a copy would go through. *)
Definition usermem_IO := Z -> option Z.

(** Modelled from the spec: [waiter.Queue] ([pkg/waiter] is not among the
    sources). The queue holds the registered entries in registration
    order; registering adds the entry, unregistering removes it,
    [Events] is the union of the interests of the registered waiters
    and [Notify] broadcasts an event to all currently registered
    waiters. *)
Definition Queue := list Entry.
Definition Queue_EventRegister (q : Queue) (e : Entry) : Queue := q ++ [e].
Definition Queue_EventUnregister (q : Queue) (e : Entry) : Queue :=
  remove Entry_eq_dec e q.
Definition Queue_Events (q : Queue) : EventMask :=
  fold_right (fun e m => Z.lor (entry_mask e) m) 0 q.
Definition Queue_Notify (q : Queue) (mask : EventMask) : list Event :=
  map (fun e => EvNotifyEvent e mask) q.

(** *** State and the effect monad *)

(** The fields of [vfioFd] that its methods read; [hostFd] never changes. *)
Record vfioFd : Type := mkVfioFd { hostFd : Z }.

(** What the methods change: the descriptor's waiter queue ([fd.queue]),
    the readiness subscription the notifier holds for [fd.hostFd] on the
    host, and the trace. *)
Record State : Type := mkState
  { queue : Queue; subscription : EventMask; trace : list Event }.

Inductive panic_value : Type :=
| panic_string (msg : string)
| panic_UpdateFD (err : error).   (* fmt.Sprint("UpdateFD:", err) *)

Inductive Outcome (A : Type) : Type :=
| Ret (a : A) (s : State)
| Panic (p : panic_value) (s : State).
Arguments Ret {A} a s.
Arguments Panic {A} p s.

Definition M (A : Type) : Type := State -> Outcome A.

Definition ret {A} (a : A) : M A := fun s => Ret a s.
Definition bind {A B} (c : M A) (k : A -> M B) : M B :=
  fun s => match c s with
           | Ret a s' => k a s'
           | Panic p s' => Panic p s'
           end.
Definition panic {A} (p : panic_value) : M A := fun s => Panic p s.

Declare Scope go_scope.
Delimit Scope go_scope with go.
Notation "x <- c ;; k" := (bind c (fun x => k))
  (at level 61, c at next level, right associativity) : go_scope.
Notation "c ;; k" := (bind c (fun _ => k))
  (at level 61, right associativity) : go_scope.
Local Open Scope go_scope.

Definition emit (ev : Event) : M unit :=
  fun s => Ret tt {| queue := queue s; subscription := subscription s;
                     trace := trace s ++ [ev] |}.

Definition final_state {A} (o : Outcome A) : State :=
  match o with Ret _ s => s | Panic _ s => s end.

(** The events a run appended: what follows the first [length old]
    entries of the new trace. *)
Definition new_events (old new : State) : list Event :=
  skipn (List.length (trace old)) (trace new).

Section Methods.
Context {abi : LinuxABI} {host : Host}.

(** *** Calls out of the file *)

(** [ioctlInvoke[int32](hostFd, cmd, arg)]: one host ioctl. *)
Definition ioctlInvoke (hostfd cmd arg : Z) : M (Z * option error) :=
  fun s => Ret (ioctlInvoke_result (trace s) hostfd cmd arg)
               {| queue := queue s; subscription := subscription s;
                  trace := trace s ++ [EvHostIoctl hostfd cmd arg] |}.

(** Modelled from the spec: [fdnotifier.UpdateFD] ([pkg/fdnotifier] is not
    among the sources) re-synchronizes the host-level subscription mask
    to the union of the interests of the waiters in the queue. When the
    host refuses, the error is returned and the subscription stays as it
    was. *)
Definition fdnotifier_UpdateFD (hostfd : Z) : M (option error) :=
  fun s =>
    let mask := Queue_Events (queue s) in
    let tr := trace s ++ [EvUpdateFD hostfd mask] in
    match UpdateFD_result (trace s) hostfd mask with
    | None => Ret None {| queue := queue s; subscription := mask; trace := tr |}
    | Some err =>
        Ret (Some err)
            {| queue := queue s; subscription := subscription s; trace := tr |}
    end.

(** Modelled from the spec: [fdnotifier.RemoveFD] unsubscribes the host
    descriptor from readiness notification. *)
Definition fdnotifier_RemoveFD (hostfd : Z) : M unit :=
  fun s => Ret tt {| queue := queue s; subscription := 0;
                     trace := trace s ++ [EvRemoveFD hostfd] |}.

Definition unix_Close (hostfd : Z) : M unit := emit (EvClose hostfd).

Definition log_Warningf (ext_name : string) (err : error) : M unit :=
  emit (EvLogWarning ext_name err).

(** The methods of [fd.queue], acting on the queue held in the state. *)
Definition queue_EventRegister (e : Entry) : M unit :=
  fun s => Ret tt {| queue := Queue_EventRegister (queue s) e;
                     subscription := subscription s; trace := trace s |}.
Definition queue_EventUnregister (e : Entry) : M unit :=
  fun s => Ret tt {| queue := Queue_EventUnregister (queue s) e;
                     subscription := subscription s; trace := trace s |}.
Definition queue_Notify (mask : EventMask) : M unit :=
  fun s => Ret tt {| queue := queue s; subscription := subscription s;
                     trace := trace s ++ Queue_Notify (queue s) mask |}.

(** *** The methods of [vfioFd] *)

Definition Release (fd : vfioFd) (ctx : Context) : M unit :=
  fdnotifier_RemoveFD (hostFd fd) ;;
  queue_Notify EventHUp ;;
  unix_Close (hostFd fd).

Definition EventRegister (fd : vfioFd) (e : Entry) : M (option error) :=
  queue_EventRegister e ;;
  err <- fdnotifier_UpdateFD (hostFd fd) ;;
  match err with
  | Some er => queue_EventUnregister e ;; ret (Some er)
  | None => ret None
  end.

Definition EventUnregister (fd : vfioFd) (e : Entry) : M unit :=
  queue_EventUnregister e ;;
  err <- fdnotifier_UpdateFD (hostFd fd) ;;
  match err with
  | Some er => panic (panic_UpdateFD er)
  | None => ret tt
  end.

Definition Epollable (fd : vfioFd) : bool := true.

(** [extension] is an [int32]. *)
Definition extension := Z.

Definition extension_String (e : extension) : string :=
  if e =? VFIO_TYPE1_IOMMU then "VFIO_TYPE1_IOMMU"%string
  else if e =? VFIO_SPAPR_TCE_IOMMU then "VFIO_SPAPR_TCE_IOMMU"%string
  else if e =? VFIO_TYPE1v2_IOMMU then "VFIO_TYPE1v2_IOMMU"%string
  else ""%string.

Definition allowed_extension (ext : extension) : bool :=
  (ext =? VFIO_TYPE1_IOMMU) || (ext =? VFIO_SPAPR_TCE_IOMMU)
  || (ext =? VFIO_TYPE1v2_IOMMU).

Definition checkExtension (fd : vfioFd) (ext : extension)
    : M (Z * option error) :=
  if allowed_extension ext then
    r <- ioctlInvoke (hostFd fd) VFIO_CHECK_EXTENSION (int32 ext) ;;
    match snd r with
    | Some err =>
        log_Warningf (extension_String ext) err ;;
        ret (0, Some err)
    | None => ret (fst r, None)
    end
  else ret (0, Some linuxerr_EINVAL).

Definition Ioctl (fd : vfioFd) (ctx : Context) (uio : usermem_IO) (sysno : Z)
    (args : SyscallArguments) : M (Z * option error) :=
  let cmd := SyscallArgument_Uint (arg1 args) in
  let t := kernel_TaskFromContext ctx in
  match t with
  | None => panic (panic_string "Ioctl should be called from a task context")
  | Some _ =>
      if cmd =? VFIO_CHECK_EXTENSION
      then checkExtension fd (SyscallArgument_Int (arg2 args))
      else ret (0, Some linuxerr_ENOSYS)
  end.

(** The codes the [switch] of [checkExtension] lets through, as a
    proposition. *)
Definition allowed (ext : extension) : Prop :=
  ext = VFIO_TYPE1_IOMMU \/ ext = VFIO_SPAPR_TCE_IOMMU \/ ext = VFIO_TYPE1v2_IOMMU.

End Methods.

(** The data-model invariant of the descriptor: the host subscription is
    the union of the interests of the registered waiters. *)
Definition synchronized (s : State) : Prop :=
  subscription s = Queue_Events (queue s).

(** *** A concrete host, for running the methods *)

(** The values the Linux uapi headers give the constants. *)
Definition linux_uapi : LinuxABI :=
  {| VFIO_CHECK_EXTENSION := 15205;   (* _IO(';', 101) *)
     VFIO_TYPE1_IOMMU := 1;
     VFIO_SPAPR_TCE_IOMMU := 2;
     VFIO_TYPE1v2_IOMMU := 3;
     EventHUp := 16 |}.

(** A host that supports every extension and accepts every update. *)
Definition host_ok : Host :=
  {| ioctlInvoke_result := fun _ _ _ _ => (1, None);
     UpdateFD_result := fun _ _ _ => None |}.

(** A host that fails every call with errno 9 (EBADF); its failed ioctl
    still leaves a nonzero value in the result register. *)
Definition host_bad : Host :=
  {| ioctlInvoke_result := fun _ _ _ _ => (18446744073709551615, Some (unix_Errno 9));
     UpdateFD_result := fun _ _ _ => Some (unix_Errno 9) |}.

(** A host on which the first subscription update succeeds and every
    later one fails. *)
Definition host_flaky : Host :=
  {| ioctlInvoke_result := fun _ _ _ _ => (0, None);
     UpdateFD_result := fun tr _ _ =>
       if existsb (fun ev => match ev with EvUpdateFD _ _ => true | _ => false end) tr
       then Some (unix_Errno 9) else None |}.

Definition fd0 : vfioFd := {| hostFd := 7 |}.
Definition st0 : State := {| queue := []; subscription := 0; trace := [] |}.
Definition task_ctx : Context := {| ctx_task := Some 1%positive |}.
Definition no_task_ctx : Context := {| ctx_task := None |}.
Definition no_mem : usermem_IO := fun _ => None.
Definition w1 : Entry := {| entry_addr := 1; entry_mask := 1 |}.
Definition w2 : Entry := {| entry_addr := 2; entry_mask := 20 |}.

(** *** The states a descriptor goes through *)

Section Reachable.
Context {abi : LinuxABI} {host : Host}.

(** A descriptor on which no waiter has registered yet: the zero value
    of [fd.queue], and nothing subscribed for it on the host. *)
Definition opened (s : State) : Prop := queue s = [] /\ subscription s = 0.

(** The states reached from there by calls of [EventRegister] (of an
    entry that is not in the queue: an entry sits in one queue at most
    once), [EventUnregister] and [Ioctl], as long as
    none of them panics. *)
Inductive reachable (fd : vfioFd) : State -> Prop :=
| reach_opened (s : State) : opened s -> reachable fd s
| reach_EventRegister (e : Entry) (s : State) (r : option error) (s' : State) :
    reachable fd s -> ~ In e (queue s) ->
    EventRegister fd e s = Ret r s' -> reachable fd s'
| reach_EventUnregister (e : Entry) (s s' : State) :
    reachable fd s ->
    EventUnregister fd e s = Ret tt s' -> reachable fd s'
| reach_Ioctl (ctx : Context) (uio : usermem_IO) (sysno : Z)
    (args : SyscallArguments) (s : State) (r : Z * option error) (s' : State) :
    reachable fd s ->
    Ioctl fd ctx uio sysno args s = Ret r s' -> reachable fd s'.

End Reachable.

End Vfio.

(** * Properties *)

Import Memmap Vfio.
Local Open Scope go_scope.

(** ** Memory mapping *)

(** C4. For every required range, optional range and access type,
    [Translate] on either descriptor variant returns no error and
    exactly one translation: its source is the optional range, its file
    the descriptor's own backing, its offset the start of the optional
    range and its permissions the requested access. The required range
    plays no part. *)
Theorem Translate_single_optional :
  forall (tfd : tpuFD) (pfd : pciDeviceFD)
         (required optional : MappableRange) (at_ : AccessType),
    tpuFD_Translate tfd required optional at_ =
      ([ {| Source := optional; TFile := File_tpu (tpu_memmapFile tfd);
            Offset := Start optional; Perms := at_ |} ], None)
    /\ pciDeviceFD_Translate pfd required optional at_ =
      ([ {| Source := optional; TFile := File_pci (pci_memmapFile pfd);
            Offset := Start optional; Perms := at_ |} ], None)
    /\ (forall required', tpuFD_Translate tfd required' optional at_ =
                          tpuFD_Translate tfd required optional at_)
    /\ (forall required', pciDeviceFD_Translate pfd required' optional at_ =
                          pciDeviceFD_Translate pfd required optional at_).
Proof.
  intros. repeat split.
Qed.

(** C1. For every file range and access type, [MapInternal] on either
    backing returns the invalid-argument error together with the empty
    block sequence (no bytes are mapped), and by then has appended its
    traceback to the log. *)
Theorem MapInternal_always_rejects :
  forall (tmf : tpuFDMemmapFile) (pmf : pciDeviceFdMemmapFile)
         (fr : FileRange) (at_ : AccessType) (tr : list Event),
    tpuFDMemmapFile_MapInternal tmf fr at_ tr =
      (([], Some linuxerr_EINVAL),
       tr ++ [EvLogTraceback "tpuproxy: rejecting tpuFdMemmapFile.MapInternal"])
    /\ pciDeviceFdMemmapFile_MapInternal pmf fr at_ tr =
      (([], Some linuxerr_EINVAL),
       tr ++ [EvLogTraceback "tpuproxy: rejecting pciDeviceFdMemmapFile.MapInternal"])
    /\ NumBytes (fst (fst (tpuFDMemmapFile_MapInternal tmf fr at_ tr))) = 0
    /\ NumBytes (fst (fst (pciDeviceFdMemmapFile_MapInternal pmf fr at_ tr))) = 0.
Proof.
  intros. repeat split.
Qed.

(** ** Helper facts *)

Lemma int32_id (v : Z) : - 2 ^ 31 <= v < 2 ^ 31 -> int32 v = v.
Proof.
  intros H. unfold int32. rewrite Z.mod_small; lia.
Qed.

Lemma int32_range (v : Z) : - 2 ^ 31 <= int32 v < 2 ^ 31.
Proof.
  unfold int32.
  pose proof (Z.mod_pos_bound (v + 2 ^ 31) (2 ^ 32) ltac:(lia)). lia.
Qed.

Lemma skipn_length_app {A} (l l' : list A) :
  skipn (List.length l) (l ++ l') = l'.
Proof.
  induction l as [|x l IH]; simpl; auto.
Qed.

Lemma skipn_length_self {A} (l : list A) : skipn (List.length l) l = [].
Proof.
  induction l as [|x l IH]; simpl; auto.
Qed.

Lemma new_events_same (s : State) : new_events s s = [].
Proof. apply skipn_length_self. Qed.

Lemma remove_fresh_last (q : Queue) (e : Entry) :
  ~ In e q -> Queue_EventUnregister (Queue_EventRegister q e) e = q.
Proof.
  intros Hfresh. unfold Queue_EventUnregister, Queue_EventRegister.
  rewrite remove_app. simpl.
  destruct (Entry_eq_dec e e) as [_|Hne]; [|congruence].
  rewrite app_nil_r. apply notin_remove. exact Hfresh.
Qed.

Lemma remove_absent (q : Queue) (e : Entry) :
  ~ In e q -> Queue_EventUnregister q e = q.
Proof. intros H. apply notin_remove. exact H. Qed.

Lemma unregistered_gone (q : Queue) (e : Entry) :
  ~ In e (Queue_EventUnregister q e).
Proof. apply remove_In. Qed.

(** ** The container descriptor *)

Section ControlDescriptor.
Context {abi : LinuxABI} {host : Host}.

Lemma allowed_extension_iff (ext : extension) :
  allowed_extension ext = true <-> allowed ext.
Proof.
  unfold allowed_extension, allowed.
  rewrite !orb_true_iff, !Z.eqb_eq. tauto.
Qed.

Lemma allowed_extension_false (ext : extension) :
  ~ allowed ext -> allowed_extension ext = false.
Proof.
  intros H. destruct (allowed_extension ext) eqn:E; auto.
  apply allowed_extension_iff in E. contradiction.
Qed.

Ltac run := unfold bind, ret, panic, emit, log_Warningf, unix_Close,
  ioctlInvoke, fdnotifier_UpdateFD, fdnotifier_RemoveFD,
  queue_EventRegister, queue_EventUnregister, queue_Notify; simpl.

(** The shape of every run of [checkExtension], by cases on the code and
    on the host's answer. *)
Lemma checkExtension_run (fd : vfioFd) (ext : extension) (s : State) :
  checkExtension fd ext s =
    if allowed_extension ext then
      let call := EvHostIoctl (hostFd fd) VFIO_CHECK_EXTENSION (int32 ext) in
      let r := ioctlInvoke_result (trace s) (hostFd fd) VFIO_CHECK_EXTENSION
                 (int32 ext) in
      match snd r with
      | Some err =>
          Ret (0, Some err)
              {| queue := queue s; subscription := subscription s;
                 trace := (trace s ++ [call])
                          ++ [EvLogWarning (extension_String ext) err] |}
      | None =>
          Ret (fst r, None)
              {| queue := queue s; subscription := subscription s;
                 trace := trace s ++ [call] |}
      end
    else Ret (0, Some linuxerr_EINVAL) s.
Proof.
  unfold checkExtension.
  destruct (allowed_extension ext); [|reflexivity].
  run. destruct (snd _); reflexivity.
Qed.

(** C2. For each of the three allowed codes [checkExtension] makes
    exactly one host call, the extension check on the descriptor's host
    fd with the code as an [int32], and when the host reports no error
    it returns the host's value unchanged; for every other code it
    returns invalid-argument and the trace is untouched, so no host call
    was made. *)
Theorem checkExtension_allow_list :
  forall (fd : vfioFd) (ext : extension) (s : State),
    - 2 ^ 31 <= ext < 2 ^ 31 ->
    let s' := final_state (checkExtension fd ext s) in
    (allowed ext ->
       host_calls (new_events s s') =
         [EvHostIoctl (hostFd fd) VFIO_CHECK_EXTENSION ext]
       /\ (forall v,
             ioctlInvoke_result (trace s) (hostFd fd) VFIO_CHECK_EXTENSION ext
               = (v, None) ->
             checkExtension fd ext s = Ret (v, None) s'))
    /\ (~ allowed ext ->
          checkExtension fd ext s = Ret (0, Some linuxerr_EINVAL) s
          /\ host_calls (new_events s s') = []).
Proof.
  intros fd ext s Hrange s'. subst s'. rewrite checkExtension_run. split.
  - intros Hal. apply allowed_extension_iff in Hal. rewrite Hal. cbv zeta.
    rewrite (int32_id ext Hrange).
    destruct (ioctlInvoke_result (trace s) (hostFd fd) VFIO_CHECK_EXTENSION ext)
      as [v [err|]] eqn:Hr; simpl.
    + unfold new_events. simpl. rewrite <- app_assoc, skipn_length_app.
      split; [reflexivity|]. intros v' Hv. discriminate Hv.
    + unfold new_events. simpl. rewrite skipn_length_app.
      split; [reflexivity|]. intros v' Hv. congruence.
  - intros Hna. rewrite (allowed_extension_false _ Hna). simpl.
    rewrite new_events_same. split; reflexivity.
Qed.

(** C3. With a task context, every command other than the extension
    check makes [Ioctl] return not-supported and leaves the state as it
    found it: no host call, no guest-memory access, no event at all.
    The extension check is the one command handed on, to
    [checkExtension] with the third argument register as an [int32]. *)
Theorem Ioctl_dispatch :
  forall (fd : vfioFd) (ctx : Context) (uio : usermem_IO) (sysno : Z)
         (args : SyscallArguments) (s : State) (t : Task),
    kernel_TaskFromContext ctx = Some t ->
    (uint32 (arg1 args) <> VFIO_CHECK_EXTENSION ->
       Ioctl fd ctx uio sysno args s = Ret (0, Some linuxerr_ENOSYS) s
       /\ host_calls (new_events s (final_state (Ioctl fd ctx uio sysno args s))) = []
       /\ usermem_accesses
            (new_events s (final_state (Ioctl fd ctx uio sysno args s))) = [])
    /\ (uint32 (arg1 args) = VFIO_CHECK_EXTENSION ->
          Ioctl fd ctx uio sysno args s =
          checkExtension fd (int32 (arg2 args)) s).
Proof.
  intros fd ctx uio sysno args s t Ht. unfold Ioctl. rewrite Ht.
  unfold SyscallArgument_Uint, SyscallArgument_Int. split.
  - intros Hne. apply Z.eqb_neq in Hne. rewrite Hne.
    unfold ret. simpl. rewrite new_events_same. repeat split.
  - intros Heq. apply Z.eqb_eq in Heq. rewrite Heq. reflexivity.
Qed.

(** C8. Without a task context [Ioctl] panics whatever the command and
    the arguments are, before anything else happens; with one it always
    returns. *)
Theorem Ioctl_task_context :
  forall (fd : vfioFd) (ctx : Context) (uio : usermem_IO) (sysno : Z)
         (args : SyscallArguments) (s : State),
    match kernel_TaskFromContext ctx with
    | None =>
        Ioctl fd ctx uio sysno args s =
        Panic (panic_string "Ioctl should be called from a task context") s
    | Some _ =>
        exists r s', Ioctl fd ctx uio sysno args s = Ret r s'
    end.
Proof.
  intros fd ctx uio sysno args s. unfold Ioctl.
  destruct (kernel_TaskFromContext ctx) as [t|]; [|reflexivity].
  destruct (_ =? _).
  - rewrite checkExtension_run.
    destruct (allowed_extension _); [|eauto].
    cbv zeta. destruct (snd _); eauto.
  - unfold ret. eauto.
Qed.

(** C10. Whenever [Ioctl] or [checkExtension] returns an error, the
    value returned with it is 0. *)
Theorem error_result_is_zero :
  forall (fd : vfioFd) (ctx : Context) (uio : usermem_IO) (sysno : Z)
         (args : SyscallArguments) (ext : extension) (s s' : State)
         (v : Z) (err : error),
    Ioctl fd ctx uio sysno args s = Ret (v, Some err) s'
    \/ checkExtension fd ext s = Ret (v, Some err) s' ->
    v = 0.
Proof.
  assert (Hce : forall fd ext s s' v err,
             checkExtension fd ext s = Ret (v, Some err) s' -> v = 0).
  { intros fd ext s s' v err. rewrite checkExtension_run.
    destruct (allowed_extension ext); [|intros H; inversion H; reflexivity].
    cbv zeta. destruct (snd _); intros H; inversion H; reflexivity. }
  intros fd ctx uio sysno args ext s s' v err [H|H]; [|eauto].
  unfold Ioctl in H. destruct (kernel_TaskFromContext ctx); [|discriminate H].
  destruct (_ =? _); [eauto|]. inversion H; reflexivity.
Qed.

(** Every run of [EventRegister] returns; its result and final state, by
    cases on the host's answer to the update. *)
Lemma EventRegister_run (fd : vfioFd) (e : Entry) (s : State) :
  let q1 := Queue_EventRegister (queue s) e in
  let tr := trace s ++ [EvUpdateFD (hostFd fd) (Queue_Events q1)] in
  EventRegister fd e s =
    match UpdateFD_result (trace s) (hostFd fd) (Queue_Events q1) with
    | Some err =>
        Ret (Some err)
            {| queue := Queue_EventUnregister q1 e;
               subscription := subscription s; trace := tr |}
    | None =>
        Ret None {| queue := q1; subscription := Queue_Events q1; trace := tr |}
    end.
Proof.
  unfold EventRegister. run.
  destruct (UpdateFD_result _ _ _); reflexivity.
Qed.

Lemma EventUnregister_run (fd : vfioFd) (e : Entry) (s : State) :
  let q1 := Queue_EventUnregister (queue s) e in
  let tr := trace s ++ [EvUpdateFD (hostFd fd) (Queue_Events q1)] in
  EventUnregister fd e s =
    match UpdateFD_result (trace s) (hostFd fd) (Queue_Events q1) with
    | Some err =>
        Panic (panic_UpdateFD err)
              {| queue := q1; subscription := subscription s; trace := tr |}
    | None =>
        Ret tt {| queue := q1; subscription := Queue_Events q1; trace := tr |}
    end.
Proof.
  unfold EventUnregister. run.
  destruct (UpdateFD_result _ _ _); reflexivity.
Qed.

(** Registration keeps the invariant, whether the host accepts the
    update or not. *)
Lemma EventRegister_synchronized (fd : vfioFd) (e : Entry) (s : State) :
  synchronized s -> ~ In e (queue s) ->
  synchronized (final_state (EventRegister fd e s)).
Proof.
  intros Hsync Hfresh. rewrite EventRegister_run. cbv zeta.
  destruct (UpdateFD_result _ _ _); unfold synchronized; simpl.
  - rewrite remove_fresh_last by exact Hfresh. exact Hsync.
  - reflexivity.
Qed.

(** So does an unregistration that returns. *)
Lemma EventUnregister_synchronized (fd : vfioFd) (e : Entry) (s s' : State) :
  EventUnregister fd e s = Ret tt s' -> synchronized s'.
Proof.
  rewrite EventUnregister_run. cbv zeta.
  destruct (UpdateFD_result _ _ _); intros H; inversion H.
  reflexivity.
Qed.

(** C5. [Release] always returns, and what it does is, in this order:
    remove the host fd from the notifier, notify the queue of hang-up,
    close the host fd. Nothing else happens, so every waiter registered
    at that moment is called with hang-up after the unsubscription and
    before the close. *)
Theorem Release_order :
  forall (fd : vfioFd) (ctx : Context) (s : State),
    exists s',
      Release fd ctx s = Ret tt s'
      /\ new_events s s' =
           [EvRemoveFD (hostFd fd)]
           ++ Queue_Notify (queue s) EventHUp
           ++ [EvClose (hostFd fd)]
      /\ (forall e, In e (queue s) ->
            precedes (EvRemoveFD (hostFd fd)) (EvNotifyEvent e EventHUp)
                     (new_events s s')
            /\ precedes (EvNotifyEvent e EventHUp) (EvClose (hostFd fd))
                        (new_events s s')).
Proof.
  intros fd ctx s. eexists. split; [reflexivity|].
  assert (Hnew : new_events s
            {| queue := queue s; subscription := 0;
               trace := ((trace s ++ [EvRemoveFD (hostFd fd)])
                         ++ Queue_Notify (queue s) EventHUp)
                        ++ [EvClose (hostFd fd)] |} =
          [EvRemoveFD (hostFd fd)] ++ Queue_Notify (queue s) EventHUp
          ++ [EvClose (hostFd fd)]).
  { unfold new_events. simpl trace.
    rewrite <- !app_assoc. apply skipn_length_app. }
  simpl. split; [exact Hnew|].
  intros e Hin. simpl in Hnew. rewrite Hnew. clear Hnew.
  unfold Queue_Notify.
  apply in_split in Hin. destruct Hin as [qa [qb ->]].
  rewrite map_app. simpl. rewrite <- app_assoc. simpl. split.
  - exists [], (map (fun x => EvNotifyEvent x EventHUp) qa),
           (map (fun x => EvNotifyEvent x EventHUp) qb ++ [EvClose (hostFd fd)]).
    reflexivity.
  - exists (EvRemoveFD (hostFd fd) :: map (fun x => EvNotifyEvent x EventHUp) qa),
           (map (fun x => EvNotifyEvent x EventHUp) qb), [].
    reflexivity.
Qed.

(** C6. [EventRegister] adds the entry to the queue and then asks the
    notifier for the subscription of the enlarged queue. If the host
    refuses, the error is returned and the queue is again what it was
    (and so is the subscription); if it accepts, nil is returned, the
    entry is registered and the subscription covers it. *)
Theorem EventRegister_atomic :
  forall (fd : vfioFd) (e : Entry) (s : State),
    ~ In e (queue s) ->
    let wanted := Queue_Events (Queue_EventRegister (queue s) e) in
    let s' := final_state (EventRegister fd e s) in
    new_events s s' = [EvUpdateFD (hostFd fd) wanted]
    /\ match UpdateFD_result (trace s) (hostFd fd) wanted with
       | Some err =>
           EventRegister fd e s = Ret (Some err) s'
           /\ queue s' = queue s
           /\ subscription s' = subscription s
       | None =>
           EventRegister fd e s = Ret None s'
           /\ queue s' = queue s ++ [e]
           /\ subscription s' = wanted
       end.
Proof.
  intros fd e s Hfresh wanted s'. subst wanted s'.
  rewrite EventRegister_run. cbv zeta.
  destruct (UpdateFD_result _ _ _) as [err|]; simpl;
    (split; [unfold new_events; simpl trace; apply skipn_length_app|]);
    repeat split.
  apply remove_fresh_last. exact Hfresh.
Qed.

(** C7. [EventUnregister] has no error to return: it removes the entry
    from the queue, asks the notifier for the subscription of what is
    left, and either returns with queue and subscription updated or,
    when the host refuses, panics with the host's error. *)
Theorem EventUnregister_panics_on_failure :
  forall (fd : vfioFd) (e : Entry) (s : State),
    let left := Queue_EventUnregister (queue s) e in
    let s' := final_state (EventUnregister fd e s) in
    queue s' = left
    /\ ~ In e (queue s')
    /\ new_events s s' = [EvUpdateFD (hostFd fd) (Queue_Events left)]
    /\ match UpdateFD_result (trace s) (hostFd fd) (Queue_Events left) with
       | Some err => EventUnregister fd e s = Panic (panic_UpdateFD err) s'
       | None =>
           EventUnregister fd e s = Ret tt s'
           /\ subscription s' = Queue_Events left
       end.
Proof.
  intros fd e s left s'. subst left s'.
  rewrite EventUnregister_run. cbv zeta.
  destruct (UpdateFD_result _ _ _) as [err|]; simpl;
    (split; [reflexivity|]);
    (split; [apply unregistered_gone|]);
    (split; [unfold new_events; simpl trace; apply skipn_length_app|]);
    repeat split.
Qed.

(** C9. From a state in which the subscription matches the queue,
    registering an entry that is not yet registered and then
    unregistering it gives back the same queue and the same
    subscription, whenever the host accepts the update that the
    unregistration asks for (the mask recomputed from the waiters that
    are left). This holds whether or not the registration itself
    succeeded. *)
Theorem register_unregister_roundtrip :
  forall (fd : vfioFd) (e : Entry) (s : State),
    synchronized s ->
    ~ In e (queue s) ->
    let s1 := final_state (EventRegister fd e s) in
    UpdateFD_result (trace s1) (hostFd fd) (Queue_Events (queue s)) = None ->
    exists r s2,
      EventRegister fd e s = Ret r s1
      /\ EventUnregister fd e s1 = Ret tt s2
      /\ queue s2 = queue s
      /\ subscription s2 = subscription s.
Proof.
  intros fd e s Hsync Hfresh s1. subst s1.
  rewrite EventUnregister_run, EventRegister_run. cbv zeta.
  destruct (UpdateFD_result (trace s) _ _) as [err|]; simpl;
    rewrite !remove_fresh_last by exact Hfresh.
  - rewrite (remove_absent _ _ Hfresh). intros ->.
    do 2 eexists. repeat split. simpl. symmetry. exact Hsync.
  - intros ->.
    do 2 eexists. repeat split. simpl. symmetry. exact Hsync.
Qed.

End ControlDescriptor.

(** ** Concrete runs *)

(** The scenarios the specification lists, on the Linux constants. *)

Example check_type1_supported :
  @checkExtension linux_uapi host_ok fd0 1 st0 =
  Ret (1, None)
      {| queue := []; subscription := 0; trace := [EvHostIoctl 7 15205 1] |}.
Proof. reflexivity. Qed.

Example check_9999_rejected :
  @checkExtension linux_uapi host_ok fd0 9999 st0 =
  Ret (0, Some linuxerr_EINVAL) st0.
Proof. reflexivity. Qed.

Example check_type1_host_failure :
  @checkExtension linux_uapi host_bad fd0 1 st0 =
  Ret (0, Some (unix_Errno 9))
      {| queue := []; subscription := 0;
         trace := [EvHostIoctl 7 15205 1;
                   EvLogWarning "VFIO_TYPE1_IOMMU" (unix_Errno 9)] |}.
Proof. reflexivity. Qed.

Example ioctl_0xBEEF_not_supported :
  @Ioctl linux_uapi host_ok fd0 task_ctx no_mem 16
         (mkArgs 3 48879 0 0 0 0) st0 =
  Ret (0, Some linuxerr_ENOSYS) st0.
Proof. reflexivity. Qed.

Example ioctl_0xBEEF_no_task :
  @Ioctl linux_uapi host_ok fd0 no_task_ctx no_mem 16
         (mkArgs 3 48879 0 0 0 0) st0 =
  Panic (panic_string "Ioctl should be called from a task context") st0.
Proof. reflexivity. Qed.

(** The command is read from the low 32 bits of its register and the
    code from the low 32 bits of the next one. *)
Example ioctl_truncates_registers :
  @Ioctl linux_uapi host_ok fd0 task_ctx no_mem 16
         (mkArgs 3 (2 ^ 32 + 15205) (2 ^ 32 + 3) 0 0 0) st0 =
  Ret (1, None)
      {| queue := []; subscription := 0; trace := [EvHostIoctl 7 15205 3] |}.
Proof. reflexivity. Qed.

Example release_two_waiters :
  @Release linux_uapi fd0 task_ctx
           {| queue := [w1; w2]; subscription := 21; trace := [] |} =
  Ret tt {| queue := [w1; w2]; subscription := 0;
            trace := [EvRemoveFD 7; EvNotifyEvent w1 16; EvNotifyEvent w2 16;
                      EvClose 7] |}.
Proof. reflexivity. Qed.

Example register_rolled_back :
  @EventRegister host_bad fd0 w1 st0 =
  Ret (Some (unix_Errno 9))
      {| queue := []; subscription := 0; trace := [EvUpdateFD 7 1] |}.
Proof. reflexivity. Qed.

Example unregister_panics :
  @EventUnregister host_flaky fd0 w1
     (final_state (@EventRegister host_flaky fd0 w1 st0)) =
  Panic (panic_UpdateFD (unix_Errno 9))
        {| queue := []; subscription := 1;
           trace := [EvUpdateFD 7 1; EvUpdateFD 7 0] |}.
Proof. reflexivity. Qed.

(** ** The theorems at concrete inputs *)

Lemma checkExtension_allow_list_witness :
  - 2 ^ 31 <= 1 < 2 ^ 31
  /\ @allowed linux_uapi 1
  /\ host_calls
       (new_events st0 (final_state (@checkExtension linux_uapi host_ok fd0 1 st0)))
     = [EvHostIoctl 7 15205 1].
Proof.
  assert (Hr : - 2 ^ 31 <= 1 < 2 ^ 31) by (split; [discriminate | reflexivity]).
  assert (Ha : @allowed linux_uapi 1) by (left; reflexivity).
  split; [exact Hr|]. split; [exact Ha|].
  exact (proj1 (proj1 (@checkExtension_allow_list linux_uapi host_ok fd0 1 st0 Hr)
                      Ha)).
Defined.

Lemma Ioctl_dispatch_witness :
  kernel_TaskFromContext task_ctx = Some 1%positive
  /\ uint32 48879 <> @VFIO_CHECK_EXTENSION linux_uapi
  /\ @Ioctl linux_uapi host_ok fd0 task_ctx no_mem 16
            (mkArgs 3 48879 0 0 0 0) st0 =
     Ret (0, Some linuxerr_ENOSYS) st0.
Proof.
  assert (Hne : uint32 48879 <> @VFIO_CHECK_EXTENSION linux_uapi)
    by (intro H; discriminate H).
  split; [reflexivity|]. split; [exact Hne|].
  exact (proj1 (proj1 (@Ioctl_dispatch linux_uapi host_ok fd0 task_ctx no_mem 16
                         (mkArgs 3 48879 0 0 0 0) st0 1%positive eq_refl) Hne)).
Defined.

Lemma error_result_is_zero_witness :
  @checkExtension linux_uapi host_bad fd0 1 st0 =
    Ret (0, Some (unix_Errno 9))
        {| queue := []; subscription := 0;
           trace := [EvHostIoctl 7 15205 1;
                     EvLogWarning "VFIO_TYPE1_IOMMU" (unix_Errno 9)] |}
  /\ fst (18446744073709551615, Some (unix_Errno 9)) <> 0
  /\ 0 = 0.
Proof.
  split; [reflexivity|]. split; [intro H; discriminate H|].
  exact (@error_result_is_zero linux_uapi host_bad fd0 task_ctx no_mem 16
           (mkArgs 3 15205 1 0 0 0) 1 st0 _ 0 (unix_Errno 9)
           (or_intror eq_refl)).
Defined.

Lemma EventRegister_atomic_witness :
  ~ In w2 [w1]
  /\ @EventRegister host_bad fd0 w2
       {| queue := [w1]; subscription := 1; trace := [] |} =
     Ret (Some (unix_Errno 9))
         {| queue := [w1]; subscription := 1; trace := [EvUpdateFD 7 21] |}.
Proof.
  assert (Hfresh : ~ In w2 [w1])
    by (intros [H|[]]; discriminate H).
  split; [exact Hfresh|].
  exact (proj1 (proj2 (@EventRegister_atomic host_bad fd0 w2
                         {| queue := [w1]; subscription := 1; trace := [] |}
                         Hfresh))).
Defined.

Lemma register_unregister_roundtrip_witness :
  synchronized {| queue := [w1]; subscription := 1; trace := [] |}
  /\ ~ In w2 [w1]
  /\ exists r s2,
       @EventRegister host_ok fd0 w2
         {| queue := [w1]; subscription := 1; trace := [] |} =
       Ret r (final_state (@EventRegister host_ok fd0 w2
                {| queue := [w1]; subscription := 1; trace := [] |}))
       /\ @EventUnregister host_ok fd0 w2
            (final_state (@EventRegister host_ok fd0 w2
               {| queue := [w1]; subscription := 1; trace := [] |})) =
          Ret tt s2
       /\ queue s2 = [w1]
       /\ subscription s2 = 1.
Proof.
  assert (Hfresh : ~ In w2 [w1])
    by (intros [H|[]]; discriminate H).
  split; [reflexivity|]. split; [exact Hfresh|].
  exact (@register_unregister_roundtrip host_ok fd0 w2
           {| queue := [w1]; subscription := 1; trace := [] |}
           eq_refl Hfresh eq_refl).
Defined.

(** * Further properties of the code *)

(** ** The file a translation names *)


(** X2. When a descriptor's backing points back to that descriptor, the
    file named by the descriptor's translations reports the
    descriptor's own host fd from [FD]. *)
Theorem Translate_file_FD :
  forall (st : Store) (tfd : tpuFD) (pfd : pciDeviceFD)
         (required optional : MappableRange) (at_ : AccessType),
    tpu_at st (tpu_mf_fd (tpu_memmapFile tfd)) = Some tfd ->
    pci_at st (pci_mf_fd (pci_memmapFile pfd)) = Some pfd ->
    (forall t, In t (fst (tpuFD_Translate tfd required optional at_)) ->
               File_FD st (TFile t) = Some (tpu_hostFD tfd))
    /\ (forall t, In t (fst (pciDeviceFD_Translate pfd required optional at_)) ->
                  File_FD st (TFile t) = Some (pci_hostFD pfd)).
Proof.
  intros st tfd pfd required optional at_ Ht Hp. split.
  - intros t [<-|[]]. simpl. unfold tpuFDMemmapFile_FD. rewrite Ht. reflexivity.
  - intros t [<-|[]]. simpl. unfold pciDeviceFdMemmapFile_FD. rewrite Hp.
    reflexivity.
Qed.

(** ** 32-bit conversions *)

Lemma int32_idem (v : Z) : int32 (int32 v) = int32 v.
Proof. apply int32_id, int32_range. Qed.

Lemma int32_low_bits (a b : Z) : uint32 a = uint32 b -> int32 a = int32 b.
Proof.
  unfold uint32, int32. intros H.
  rewrite <- (Z.add_mod_idemp_l a), <- (Z.add_mod_idemp_l b) by lia.
  rewrite H. reflexivity.
Qed.

Lemma Queue_Events_app (q : Queue) (e : Entry) :
  Queue_Events (q ++ [e]) = Z.lor (Queue_Events q) (entry_mask e).
Proof.
  induction q as [|x q IH]; simpl.
  - rewrite Z.lor_0_r. reflexivity.
  - rewrite IH, Z.lor_assoc. reflexivity.
Qed.

Lemma NoDup_unregister (q : Queue) (e : Entry) :
  NoDup q -> NoDup (Queue_EventUnregister q e).
Proof.
  unfold Queue_EventUnregister. induction 1 as [|x q Hx Hq IH]; simpl.
  - constructor.
  - destruct (Entry_eq_dec e x); [exact IH|].
    constructor; [|exact IH].
    intros Hin. apply in_remove in Hin. tauto.
Qed.

Lemma NoDup_register (q : Queue) (e : Entry) :
  NoDup q -> ~ In e q -> NoDup (Queue_EventRegister q e).
Proof.
  unfold Queue_EventRegister. induction 1 as [|x q Hx Hq IH]; simpl; intros Hf.
  - constructor; [tauto | constructor].
  - constructor.
    + rewrite in_app_iff. simpl. intros [H|[H|[]]]; [tauto|].
      apply Hf. left. symmetry. exact H.
    + apply IH. tauto.
Qed.

Section MoreControlDescriptor.
Context {abi : LinuxABI} {host : Host}.

(** ** Ioctl and the extension check *)

(** What a run of [Ioctl] is, by cases. *)
Lemma Ioctl_run (fd : vfioFd) (ctx : Context) (uio : usermem_IO) (sysno : Z)
    (args : SyscallArguments) (s : State) :
  Ioctl fd ctx uio sysno args s =
    match kernel_TaskFromContext ctx with
    | None =>
        Panic (panic_string "Ioctl should be called from a task context") s
    | Some _ =>
        if uint32 (arg1 args) =? VFIO_CHECK_EXTENSION
        then checkExtension fd (int32 (arg2 args)) s
        else Ret (0, Some linuxerr_ENOSYS) s
    end.
Proof.
  unfold Ioctl, SyscallArgument_Uint, SyscallArgument_Int.
  destruct (kernel_TaskFromContext ctx); [|reflexivity].
  destruct (_ =? _); reflexivity.
Qed.


(** X4. [Ioctl] reads the command from the low 32 bits of the second
    register and the code from the low 32 bits of the third. Two calls
    that agree on those bits behave the same, whatever the other
    registers, the upper halves, the system-call number and the guest
    memory are. *)
Theorem Ioctl_low_32_bits :
  forall (fd : vfioFd) (ctx : Context) (uio uio' : usermem_IO)
         (sysno sysno' : Z) (args args' : SyscallArguments) (s : State),
    uint32 (arg1 args) = uint32 (arg1 args') ->
    uint32 (arg2 args) = uint32 (arg2 args') ->
    Ioctl fd ctx uio sysno args s = Ioctl fd ctx uio' sysno' args' s.
Proof.
  intros fd ctx uio uio' sysno sysno' args args' s H1 H2.
  rewrite !Ioctl_run, H1, (int32_low_bits _ _ H2). reflexivity.
Qed.

(** X5. When the host fails the extension check of an allowed code,
    [checkExtension] hands back the host's error as it is, and what it
    did is the host call followed by one warning that carries the
    code's name, which is not empty. *)
Theorem checkExtension_host_failure :
  forall (fd : vfioFd) (ext : extension) (s : State) (v : Z) (err : error),
    allowed ext ->
    ioctlInvoke_result (trace s) (hostFd fd) VFIO_CHECK_EXTENSION (int32 ext)
      = (v, Some err) ->
    let s' := final_state (checkExtension fd ext s) in
    checkExtension fd ext s = Ret (0, Some err) s'
    /\ new_events s s' =
         [EvHostIoctl (hostFd fd) VFIO_CHECK_EXTENSION (int32 ext);
          EvLogWarning (extension_String ext) err]
    /\ extension_String ext <> ""%string.
Proof.
  intros fd ext s v err Hal Hhost s'. subst s'.
  rewrite checkExtension_run.
  pose proof Hal as Hb. apply allowed_extension_iff in Hb. rewrite Hb.
  cbv zeta. rewrite Hhost. simpl. split; [reflexivity|]. split.
  - unfold new_events. simpl trace. rewrite <- app_assoc.
    apply skipn_length_app.
  - unfold extension_String.
    destruct Hal as [-> | [-> | ->]]; rewrite ?Z.eqb_refl;
      repeat (destruct (_ =? _)); discriminate.
Qed.

Lemma extension_String_empty (ext : extension) :
  extension_String ext = ""%string <-> allowed_extension ext = false.
Proof.
  unfold extension_String, allowed_extension.
  repeat (destruct (_ =? _); simpl); split; intros H;
    first [reflexivity | discriminate H].
Qed.

Lemma trace_grew (s : State) (q : Queue) (m : EventMask) (evs : list Event) :
  evs <> [] ->
  {| queue := q; subscription := m; trace := trace s ++ evs |} <> s.
Proof.
  intros Hne Heq. apply (f_equal (fun st => List.length (trace st))) in Heq.
  simpl in Heq. rewrite length_app in Heq.
  destruct evs; [congruence | simpl in Heq; lia].
Qed.

(** X6. [String] gives the empty string exactly for the codes that
    [checkExtension] turns down without asking the host: those for
    which it returns invalid-argument and leaves the state as it was. *)
Theorem extension_String_empty_iff_rejected :
  forall (fd : vfioFd) (ext : extension) (s : State),
    extension_String ext = ""%string
    <-> checkExtension fd ext s = Ret (0, Some linuxerr_EINVAL) s.
Proof.
  intros fd ext s. rewrite extension_String_empty, checkExtension_run.
  destruct (allowed_extension ext); [|split; reflexivity].
  cbv zeta. split; [discriminate|].
  destruct (snd _); intros H; [|discriminate H].
  inversion H as [[He Hs]]. exfalso.
  rewrite <- app_assoc in Hs. revert Hs. apply trace_grew. discriminate.
Qed.

(** X7. [Ioctl] reports success only when the host did: a nil error
    means there was a task, the command was the extension check, the
    code was an allowed one, the host answered the call without error,
    and the value returned is the host's. *)
Theorem Ioctl_success_is_the_hosts :
  forall (fd : vfioFd) (ctx : Context) (uio : usermem_IO) (sysno : Z)
         (args : SyscallArguments) (s s' : State) (v : Z),
    Ioctl fd ctx uio sysno args s = Ret (v, None) s' ->
    kernel_TaskFromContext ctx <> None
    /\ uint32 (arg1 args) = VFIO_CHECK_EXTENSION
    /\ allowed (int32 (arg2 args))
    /\ ioctlInvoke_result (trace s) (hostFd fd) VFIO_CHECK_EXTENSION
         (int32 (arg2 args)) = (v, None)
    /\ new_events s s' =
         [EvHostIoctl (hostFd fd) VFIO_CHECK_EXTENSION (int32 (arg2 args))].
Proof.
  intros fd ctx uio sysno args s s' v. rewrite Ioctl_run.
  destruct (kernel_TaskFromContext ctx) as [t|]; [|discriminate].
  destruct (_ =? _) eqn:Hcmd; [|discriminate].
  apply Z.eqb_eq in Hcmd. rewrite checkExtension_run.
  destruct (allowed_extension _) eqn:Hal; [|discriminate].
  apply allowed_extension_iff in Hal. cbv zeta. rewrite int32_idem.
  destruct (ioctlInvoke_result _ _ _ _) as [v0 [err|]] eqn:Hr; simpl;
    [discriminate|].
  intros H. inversion H; subst. repeat split; try assumption.
  - discriminate.
  - unfold new_events. simpl trace. apply skipn_length_app.
Qed.

(** ** Waiters and the host subscription *)

Lemma Ioctl_keeps_waiters (fd : vfioFd) (ctx : Context) (uio : usermem_IO)
    (sysno : Z) (args : SyscallArguments) (s : State) :
  queue (final_state (Ioctl fd ctx uio sysno args s)) = queue s
  /\ subscription (final_state (Ioctl fd ctx uio sysno args s)) = subscription s.
Proof.
  rewrite Ioctl_run.
  destruct (kernel_TaskFromContext ctx); [|split; reflexivity].
  destruct (_ =? _); [|split; reflexivity].
  rewrite checkExtension_run.
  destruct (allowed_extension _); [|split; reflexivity].
  cbv zeta. destruct (snd _); split; reflexivity.
Qed.

(** X8. In every state a descriptor can reach from being opened, through
    registrations, unregistrations and ioctls that did not panic, the
    host subscription is the union of the interests of the registered
    waiters and no entry is in the queue twice. Failed registrations
    included: the rollback is what keeps the two in step. *)
Theorem reachable_synchronized :
  forall (fd : vfioFd) (s : State),
    reachable fd s -> synchronized s /\ NoDup (queue s).
Proof.
  intros fd s Hreach.
  induction Hreach as [s [Hq Hs] | e s r s' _ [IHs IHn] Hfresh Hrun
                      | e s s' _ [IHs IHn] Hrun
                      | ctx uio sysno args s r s' _ [IHs IHn] Hrun].
  - unfold synchronized. rewrite Hq, Hs. split; [reflexivity | constructor].
  - split.
    + pose proof (EventRegister_synchronized fd e s IHs Hfresh) as H.
      rewrite Hrun in H. exact H.
    + rewrite EventRegister_run in Hrun. cbv zeta in Hrun.
      destruct (UpdateFD_result _ _ _); inversion Hrun; subst; simpl.
      * rewrite remove_fresh_last by exact Hfresh. exact IHn.
      * apply NoDup_register; assumption.
  - split.
    + exact (EventUnregister_synchronized fd e s s' Hrun).
    + rewrite EventUnregister_run in Hrun. cbv zeta in Hrun.
      destruct (UpdateFD_result _ _ _); inversion Hrun; subst; simpl.
      apply NoDup_unregister. exact IHn.
  - destruct (Ioctl_keeps_waiters fd ctx uio sysno args s) as [Hq Hs].
    rewrite Hrun in Hq, Hs. simpl in Hq, Hs.
    unfold synchronized. rewrite Hq, Hs. split; assumption.
Qed.

(** X9. Unregistering an entry that is not in the queue leaves the queue
    as it is, but the notifier is still asked once, for the
    subscription of the unchanged queue, and the call still panics when
    the host refuses. *)
Theorem EventUnregister_absent_entry :
  forall (fd : vfioFd) (e : Entry) (s : State),
    ~ In e (queue s) ->
    let s' := final_state (EventUnregister fd e s) in
    queue s' = queue s
    /\ new_events s s' = [EvUpdateFD (hostFd fd) (Queue_Events (queue s))]
    /\ match UpdateFD_result (trace s) (hostFd fd) (Queue_Events (queue s)) with
       | Some err => EventUnregister fd e s = Panic (panic_UpdateFD err) s'
       | None => EventUnregister fd e s = Ret tt s'
       end.
Proof.
  intros fd e s Habsent s'. subst s'.
  rewrite EventUnregister_run. cbv zeta.
  rewrite (remove_absent _ _ Habsent).
  destruct (UpdateFD_result _ _ _); simpl;
    (split; [reflexivity|]);
    (split; [unfold new_events; simpl trace; apply skipn_length_app
            | reflexivity]).
Qed.

(** X10. A registration that succeeds from a state where the
    subscription matches the queue widens the subscription by exactly
    the entry's interests: every event the entry asked for is
    subscribed afterwards, and none that was subscribed is lost. *)
Theorem EventRegister_widens_subscription :
  forall (fd : vfioFd) (e : Entry) (s s' : State),
    synchronized s ->
    EventRegister fd e s = Ret None s' ->
    subscription s' = Z.lor (subscription s) (entry_mask e)
    /\ (forall n, Z.testbit (entry_mask e) n = true ->
                  Z.testbit (subscription s') n = true)
    /\ (forall n, Z.testbit (subscription s) n = true ->
                  Z.testbit (subscription s') n = true).
Proof.
  intros fd e s s' Hsync Hrun.
  rewrite EventRegister_run in Hrun. cbv zeta in Hrun.
  destruct (UpdateFD_result _ _ _); inversion Hrun; subst; clear Hrun.
  simpl. unfold Queue_EventRegister. rewrite Queue_Events_app, <- Hsync.
  split; [reflexivity|].
  split; intros n Hn; rewrite Z.lor_spec, Hn;
    [apply orb_true_r | reflexivity].
Qed.

End MoreControlDescriptor.

(** ** The further theorems at concrete inputs *)


Lemma Translate_file_FD_witness :
  tpu_at store0 (tpu_mf_fd (tpu_memmapFile tpu0)) = Some tpu0
  /\ pci_at store0 (pci_mf_fd (pci_memmapFile pci0)) = Some pci0
  /\ File_FD store0 (File_pci (mkPciMF 2)) = Some 6.
Proof.
  split; [reflexivity|]. split; [reflexivity|].
  exact (proj2 (Translate_file_FD store0 tpu0 pci0 (mkMR 0 0) (mkMR 0 4096)
                  (mkAT true false false) eq_refl eq_refl)
               _ (or_introl eq_refl)).
Defined.

Lemma Ioctl_low_32_bits_witness :
  uint32 15205 = uint32 (2 ^ 32 + 15205)
  /\ uint32 3 = uint32 (5 * 2 ^ 32 + 3)
  /\ @Ioctl linux_uapi host_ok fd0 task_ctx no_mem 16
            (mkArgs 3 15205 3 0 0 0) st0 =
     @Ioctl linux_uapi host_ok fd0 task_ctx (fun _ => Some 1) 29
            (mkArgs 0 (2 ^ 32 + 15205) (5 * 2 ^ 32 + 3) 7 8 9) st0.
Proof.
  split; [reflexivity|]. split; [reflexivity|].
  exact (@Ioctl_low_32_bits linux_uapi host_ok fd0 task_ctx no_mem
           (fun _ => Some 1) 16 29 (mkArgs 3 15205 3 0 0 0)
           (mkArgs 0 (2 ^ 32 + 15205) (5 * 2 ^ 32 + 3) 7 8 9) st0
           eq_refl eq_refl).
Defined.

Lemma checkExtension_host_failure_witness :
  @allowed linux_uapi 3
  /\ @ioctlInvoke_result host_bad [] 7 15205 (int32 3) =
       (18446744073709551615, Some (unix_Errno 9))
  /\ @checkExtension linux_uapi host_bad fd0 3 st0 =
       Ret (0, Some (unix_Errno 9))
           (final_state (@checkExtension linux_uapi host_bad fd0 3 st0)).
Proof.
  assert (Ha : @allowed linux_uapi 3) by (right; right; reflexivity).
  split; [exact Ha|]. split; [reflexivity|].
  exact (proj1 (@checkExtension_host_failure linux_uapi host_bad fd0 3 st0
                  18446744073709551615 (unix_Errno 9) Ha eq_refl)).
Defined.

Lemma Ioctl_success_is_the_hosts_witness :
  @Ioctl linux_uapi host_ok fd0 task_ctx no_mem 16
         (mkArgs 3 15205 2 0 0 0) st0 =
    Ret (1, None)
        {| queue := []; subscription := 0; trace := [EvHostIoctl 7 15205 2] |}
  /\ @allowed linux_uapi (int32 2).
Proof.
  split; [reflexivity|].
  exact (proj1 (proj2 (proj2
           (@Ioctl_success_is_the_hosts linux_uapi host_ok fd0 task_ctx no_mem 16
              (mkArgs 3 15205 2 0 0 0) st0 _ 1 eq_refl)))).
Defined.

Lemma reachable_synchronized_witness :
  @reachable linux_uapi host_flaky fd0
    {| queue := [w1]; subscription := 1; trace := [EvUpdateFD 7 1; EvUpdateFD 7 21] |}
  /\ synchronized
       {| queue := [w1]; subscription := 1;
          trace := [EvUpdateFD 7 1; EvUpdateFD 7 21] |}.
Proof.
  assert (Hr : @reachable linux_uapi host_flaky fd0
                 {| queue := [w1]; subscription := 1;
                    trace := [EvUpdateFD 7 1; EvUpdateFD 7 21] |}).
  { apply (@reach_EventRegister linux_uapi host_flaky fd0 w2
             {| queue := [w1]; subscription := 1; trace := [EvUpdateFD 7 1] |}
             (Some (unix_Errno 9))).
    - apply (@reach_EventRegister linux_uapi host_flaky fd0 w1 st0 None).
      + apply reach_opened. split; reflexivity.
      + intros [].
      + reflexivity.
    - intros [H|[]]; discriminate H.
    - reflexivity. }
  split; [exact Hr|].
  exact (proj1 (@reachable_synchronized linux_uapi host_flaky fd0 _ Hr)).
Defined.

Lemma EventUnregister_absent_entry_witness :
  ~ In w2 [w1]
  /\ @EventUnregister host_bad fd0 w2
       {| queue := [w1]; subscription := 1; trace := [] |} =
     Panic (panic_UpdateFD (unix_Errno 9))
           {| queue := [w1]; subscription := 1; trace := [EvUpdateFD 7 1] |}.
Proof.
  assert (Habsent : ~ In w2 [w1]) by (intros [H|[]]; discriminate H).
  split; [exact Habsent|].
  exact (proj2 (proj2 (@EventUnregister_absent_entry host_bad fd0 w2
                         {| queue := [w1]; subscription := 1; trace := [] |}
                         Habsent))).
Defined.

Lemma EventRegister_widens_subscription_witness :
  synchronized {| queue := [w1]; subscription := 1; trace := [] |}
  /\ @EventRegister host_ok fd0 w2
       {| queue := [w1]; subscription := 1; trace := [] |} =
     Ret None {| queue := [w1; w2]; subscription := 21;
                 trace := [EvUpdateFD 7 21] |}
  /\ 21 = Z.lor 1 20.
Proof.
  split; [reflexivity|]. split; [reflexivity|].
  exact (proj1 (@EventRegister_widens_subscription host_ok fd0 w2
                  {| queue := [w1]; subscription := 1; trace := [] |}
                  {| queue := [w1; w2]; subscription := 21;
                     trace := [EvUpdateFD 7 21] |}
                  eq_refl eq_refl)).
Defined.
